(** * SentinelNet dashboard (app.py): the data pipeline behind the page

    The script builds a frame of simulated alerts, tags every alert with a
    severity, moves the timestamps once per session so that the latest alert
    is "now", filters the frame by the two sidebar choices and hands the
    result to the charts, the tables and the CSV download.

    Conventions of the embedding:
    - an instant ([pd.Timestamp]) is the integer count of nanoseconds since
      the epoch and a duration ([pd.Timedelta]) a count of nanoseconds, as
      pandas stores them; the 64-bit range of that representation, outside
      of which pandas raises, is not part of the model;
    - a Python [str] of ASCII characters is a [string]; on such strings
      [str.lower] and [str.upper] are the case mappings of the ASCII
      letters, and the statements about case below are made for them
      ([ascii_only]); the case tables of the other characters are not part
      of the model;
    - a frame is the list of its rows, in row order, next to the list of its
      column names, in column order. *)

From Stdlib Require Import ZArith Ascii String List.
From stdpp Require Import base decidable option list sorting strings pretty gmap.

Local Open Scope list_scope.

(** ** Instants and durations *)

Module Timedelta.
Definition second : Z := 1000000000.
Definition seconds (n : Z) : Z := (n * second)%Z.
Definition minutes (n : Z) : Z := (n * 60 * second)%Z.
Definition hours (n : Z) : Z := (n * 3600 * second)%Z.
End Timedelta.

(** The two frequency strings of the script: ["10S"] and ["5T"]. *)
Definition freq_10S : Z := Timedelta.seconds 10.
Definition freq_5T : Z := Timedelta.minutes 5.

(** [pd.date_range(start, periods=n, freq=f)]: [n] instants, [f] apart,
    the first one at [start]. *)
Definition date_range (start : Z) (periods : nat) (freq : Z) : list Z :=
  (λ i : nat, (start + Z.of_nat i * freq)%Z) <$> seq 0 periods.

(** ** Strings: case mapping *)

Definition is_upper (c : ascii) : bool :=
  (65 <=? nat_of_ascii c)%nat && (nat_of_ascii c <=? 90)%nat.

Definition is_lower (c : ascii) : bool :=
  (97 <=? nat_of_ascii c)%nat && (nat_of_ascii c <=? 122)%nat.

Definition lower_char (c : ascii) : ascii :=
  if is_upper c then ascii_of_nat (nat_of_ascii c + 32) else c.

Definition upper_char (c : ascii) : ascii :=
  if is_lower c then ascii_of_nat (nat_of_ascii c - 32) else c.

Fixpoint map_string (f : ascii → ascii) (s : string) : string :=
  match s with
  | EmptyString => EmptyString
  | String c s' => String (f c) (map_string f s')
  end.

(** [s.lower()] and [s.upper()] for a string [s] of ASCII characters. *)
Definition lower : string → string := map_string lower_char.
Definition upper : string → string := map_string upper_char.

(** The strings of ASCII characters: every code is below 128. *)
Fixpoint ascii_only (s : string) : bool :=
  match s with
  | EmptyString => true
  | String c s' => (nat_of_ascii c <? 128)%nat && ascii_only s'
  end.

(** What "case-insensitive" means for two strings, said without the case
    mappings: the strings have one length and at every place the two
    characters are equal or are the upper-case and the lower-case form of
    one ASCII letter, 32 codes apart. *)
Definition same_letter (c d : ascii) : bool :=
  let m := nat_of_ascii c in
  let n := nat_of_ascii d in
  (m =? n)%nat
  || ((65 <=? m)%nat && (m <=? 90)%nat && (n =? m + 32)%nat)
  || ((65 <=? n)%nat && (n <=? 90)%nat && (m =? n + 32)%nat).

Fixpoint equal_ignoring_case (s t : string) : bool :=
  match s, t with
  | EmptyString, EmptyString => true
  | String c s', String d t' => same_letter c d && equal_ignoring_case s' t'
  | _, _ => false
  end.

(** ** Simulated data (lines 84-101) *)

Definition HIGH_COUNT : nat := Z.to_nat 15799.
Definition MEDIUM_COUNT : nat := 100.
Definition NORMAL_COUNT : nat := 100.

(** [base_time = pd.Timestamp.now() - pd.Timedelta(hours=6)] *)
Definition base_time (now : Z) : Z := (now - Timedelta.hours 6)%Z.

Definition timestamps_high (base : Z) (high : nat) : list Z :=
  date_range base high freq_10S.
Definition timestamps_medium (base : Z) (medium : nat) : list Z :=
  date_range base medium freq_5T.
Definition timestamps_normal (base : Z) (normal : nat) : list Z :=
  date_range base normal freq_5T.

(** A row of the frame as the constructor leaves it: the two columns
    [timestamp] and [attack_type]. *)
Abbreviation Event := (Z * string)%type.

(** [pd.DataFrame({"timestamp": ts, "attack_type": tys})]: the columns must
    have one length, else the constructor raises. *)
Definition DataFrame (ts : list Z) (tys : list string) : option (list Event) :=
  if decide (length ts = length tys) then Some (zip ts tys) else None.

(** The frame of lines 94-101, for any three counts and base instant. *)
Definition generate (high medium normal : nat) (base : Z) : option (list Event) :=
  DataFrame
    (timestamps_high base high ++ timestamps_medium base medium
       ++ timestamps_normal base normal)
    (replicate high "dos" ++ replicate medium "other"
       ++ replicate normal "normal").

(** The rows that one call of [date_range] and one repeated attack type
    contribute to the frame. *)
Definition rows_of (ts : list Z) (attack : string) : list Event :=
  zip ts (replicate (length ts) attack).

(** ** Severity classification (lines 106-118) *)

Definition HIGH_SEVERITY : list string :=
  ["dos"; "ddos"; "u2r"; "r2l"; "probe"; "backdoor"; "worm"].

(** Lines 108-115 with the builtin [str.lower] as a parameter: the
    decision of the function for any string, whatever the case table. *)
Definition classify_severity_with (str_lower : string → string)
    (attack : string) : string :=
  let attack := str_lower attack in
  if decide (attack ∈ HIGH_SEVERITY) then "HIGH"
  else if decide (attack = "normal") then "NORMAL"
  else "MEDIUM".

(** Lines 108-115 on strings of ASCII characters, where [str.lower] is
    [lower]; [str(attack)] is [attack] itself for the strings of the
    column. *)
Definition classify_severity (attack : string) : string :=
  let attack := lower attack in
  if decide (attack ∈ HIGH_SEVERITY) then "HIGH"
  else if decide (attack = "normal") then "NORMAL"
  else "MEDIUM".

(** A row once [severity] and [label] are set. *)
Record Alert : Type := mkAlert {
  timestamp : Z;
  attack_type : string;
  severity : string;
  label : string
}.

Global Instance Alert_eq_dec : EqDecision Alert.
Proof. solve_decision. Defined.

(** [alerts_df["severity"] = alerts_df["attack_type"].apply(classify_severity)]
    and [alerts_df["label"] = alerts_df["attack_type"].str.upper()], row by
    row. *)
Definition classify_event (e : Event) : Alert :=
  {| timestamp := e.1;
     attack_type := e.2;
     severity := classify_severity e.2;
     label := upper e.2 |}.

Definition classify (events : list Event) : list Alert :=
  classify_event <$> events.

(** The invariant of the data model: the severity of a row is the one the
    classifier gives to its attack type. *)
Definition consistent (df : list Alert) : Prop :=
  Forall (λ r, severity r = classify_severity (attack_type r)) df.

(** Column order: the constructor's two keys, then each new column where
    [df[name] = ...] puts it, at the end unless the name exists. *)
Definition set_column (name : string) (columns : list string) : list string :=
  if decide (name ∈ columns) then columns else columns ++ [name].

Definition alerts_columns : list string :=
  set_column "label" (set_column "severity" ["timestamp"; "attack_type"]).

(** [alerts_df] as line 118 leaves it.  The column [attack_type] of a
    frame without rows holds no string (pandas makes it a float64 column),
    and [.str] is refused on such a column: line 118 raises. *)
Definition alerts_df (high medium normal : nat) (base : Z) : option (list Alert) :=
  events ← generate high medium normal base;
  if decide (events = []) then None else Some (classify events).

(** ** One-time shift of the timestamps (lines 123-126) *)

(** [alerts_df["timestamp"].max()]: no instant for an empty column (NaT). *)
Fixpoint max_timestamp (df : list Alert) : option Z :=
  match df with
  | [] => None
  | r :: df' =>
      Some (match max_timestamp df' with
            | None => timestamp r
            | Some m => Z.max (timestamp r) m
            end)
  end.

Definition add_timedelta (shift : Z) (r : Alert) : Alert :=
  {| timestamp := (timestamp r + shift)%Z;
     attack_type := attack_type r;
     severity := severity r;
     label := label r |}.

(** [shift = now - max; alerts_df["timestamp"] += shift].  The maximum is
    missing only when the frame has no row, and then there is no row to
    change. *)
Definition apply_shift (now : Z) (df : list Alert) : list Alert :=
  match max_timestamp df with
  | Some latest => add_timedelta (now - latest)%Z <$> df
  | None => df
  end.

(** What the block reads and writes: the frame and [st.session_state]. *)
Record Session : Type := mkSession {
  frame : list Alert;
  session_state : gmap string bool
}.

(** [if "time_shift" not in st.session_state: ...] with the clock read
    inside the guarded block. *)
Definition time_shift (now : Z) (s : Session) : Session :=
  match session_state s !! "time_shift" with
  | None =>
      {| frame := apply_shift now (frame s);
         session_state := <["time_shift" := true]> (session_state s) |}
  | Some _ => s
  end.

(** ** Filters (lines 160-177) *)

(** [alerts_df["attack_type"].unique()]: the distinct values, each at the
    place of its first occurrence. *)
Fixpoint unique_from (seen : list string) (l : list string) : list string :=
  match l with
  | [] => []
  | x :: l' =>
      if decide (x ∈ seen) then unique_from seen l'
      else x :: unique_from (x :: seen) l'
  end.

Definition unique (l : list string) : list string := unique_from [] l.

(** [sorted(...)] on strings. *)
Definition sorted (l : list string) : list string := merge_sort String.le l.

(** The options offered by [st.selectbox("Attack Type", ...)]. *)
Definition attack_filter_options (df : list Alert) : list string :=
  ["All"] ++ sorted (unique (attack_type <$> df)).

(** The options of [st.multiselect("Severity Level", ...)]. *)
Definition severity_options : list string := ["HIGH"; "MEDIUM"; "NORMAL"].

(** [df[df["attack_type"] == attack_filter]] under its guard. *)
Definition filter_attack (attack_filter : string) (df : list Alert) : list Alert :=
  if decide (attack_filter ≠ "All")
  then filter (λ r, attack_type r = attack_filter) df
  else df.

(** [df[df["severity"].isin(severity_filter)]] *)
Definition filter_severity (severity_filter : list string) (df : list Alert)
    : list Alert :=
  filter (λ r, severity r ∈ severity_filter) df.

(** Lines 172-177 as a function of the frame and the two choices. *)
Definition filter_alerts (attack_filter : string) (severity_filter : list string)
    (alerts : list Alert) : list Alert :=
  let df := alerts in
  let df := filter_attack attack_filter df in
  filter_severity severity_filter df.

(** ** Views and export (lines 251-278) *)

(** [df[columns]]: the frame with the listed columns, in the listed order;
    the rows are not touched. *)
Definition table_columns : list string := ["timestamp"; "label"; "severity"].

(** [df.tail(n)] *)
Definition tail (n : nat) (df : list Alert) : list Alert :=
  drop (length df - n) df.

(** [critical = df[df["severity"] == "HIGH"]] *)
Definition critical (df : list Alert) : list Alert :=
  filter (λ r, severity r = "HIGH") df.

Section to_csv.
(** How pandas prints an instant, and the line terminator of the
    platform ([os.linesep]). *)
Variable format_timestamp : Z → string.
Variable lineterminator : string.

Definition quotechar : ascii := ascii_of_nat 34.
Definition delimiter : ascii := ascii_of_nat 44.

(** The writer quotes a field that holds the delimiter, the quote
    character or a line break, and doubles the quote characters in it.
    (Writers before Python 3.13 quote a line break only if it occurs in the
    line terminator.) *)
Definition special (c : ascii) : bool :=
  bool_decide (c ∈ [delimiter; quotechar; ascii_of_nat 10; ascii_of_nat 13]).

Fixpoint needs_quotes (s : string) : bool :=
  match s with
  | EmptyString => false
  | String c s' => special c || needs_quotes s'
  end.

Fixpoint double_quotes (s : string) : string :=
  match s with
  | EmptyString => EmptyString
  | String c s' =>
      if decide (c = quotechar)
      then String c (String c (double_quotes s'))
      else String c (double_quotes s')
  end.

Definition csv_field (s : string) : string :=
  if needs_quotes s
  then String quotechar (double_quotes s +:+ String quotechar EmptyString)
  else s.

(** The text of the cell of row [r] under [column]; no such column is a
    [KeyError]. *)
Definition cell (r : Alert) (column : string) : option string :=
  if decide (column = "timestamp") then Some (format_timestamp (timestamp r))
  else if decide (column = "attack_type") then Some (csv_field (attack_type r))
  else if decide (column = "severity") then Some (csv_field (severity r))
  else if decide (column = "label") then Some (csv_field (label r))
  else None.

(** The record of one row under the columns of [alerts_df]. *)
Definition alerts_record (r : Alert) : list string :=
  [format_timestamp (timestamp r); csv_field (attack_type r);
   csv_field (severity r); csv_field (label r)].

Definition csv_line (fields : list string) : string :=
  String.concat (String delimiter EmptyString) fields +:+ lineterminator.

(** The records of the export: the header, then one record per row. *)
Definition csv_records (columns : list string) (df : list Alert)
    : option (list (list string)) :=
  rows ← mapM (λ r, mapM (cell r) columns) df;
  Some ((csv_field <$> columns) :: rows).

(** [df.to_csv(index=False)] on a frame with the given columns. *)
Definition to_csv (columns : list string) (df : list Alert) : option string :=
  records ← csv_records columns df;
  Some (String.concat EmptyString (csv_line <$> records)).

(** The data handed to [st.download_button]: the filtered frame, whole. *)
Definition download_data (df : list Alert) : option string :=
  to_csv alerts_columns df.
End to_csv.

(** ** The filter block on the interpreter's store *)

(** Frames are objects: a name is bound to a reference and the heap maps
    references to frames.  [copy] and boolean indexing build a new object;
    an assignment rebinds the name. *)
Record Store : Type := mkStore {
  heap : gmap nat (list Alert);
  vars : gmap string nat
}.

Definition read (x : string) (σ : Store) : option (list Alert) :=
  ref ← vars σ !! x; heap σ !! ref.

(** [x = <new frame v>] *)
Definition assign_new (x : string) (v : list Alert) (σ : Store) : Store :=
  let ref := fresh (dom (heap σ)) in
  {| heap := <[ref := v]> (heap σ); vars := <[x := ref]> (vars σ) |}.

(** Lines 172-177, statement by statement. *)
Definition filter_block (attack_filter : string) (severity_filter : list string)
    (σ : Store) : option Store :=
  base ← read "alerts_df" σ;
  let σ1 := assign_new "df" base σ in
  σ2 ← (if decide (attack_filter ≠ "All")
        then df ← read "df" σ1;
             Some (assign_new "df"
                     (filter (λ r, attack_type r = attack_filter) df) σ1)
        else Some σ1);
  df ← read "df" σ2;
  Some (assign_new "df" (filter (λ r, severity r ∈ severity_filter) df) σ2).

(** [σ'] has every object of [σ], unchanged, and binds every name but [df]
    as [σ] does. *)
Definition preserves (σ σ' : Store) : Prop :=
  (∀ ref v, heap σ !! ref = Some v → heap σ' !! ref = Some v)
  ∧ (∀ x, x ≠ "df" → vars σ' !! x = vars σ !! x).

(** ** One run of the script *)

Record Page : Type := mkPage {
  page_session : Session;
  page_options : list string;
  page_df : list Alert;
  page_critical : list Alert;
  page_full_log : list Alert
}.

(** [now0] is the clock at line 88, [now1] the clock at line 124; the frame
    is rebuilt by every run and the session state is what the previous run
    left. *)
Definition run (now0 now1 : Z) (state : gmap string bool)
    (attack_filter : string) (severity_filter : list string) : option Page :=
  alerts ← alerts_df HIGH_COUNT MEDIUM_COUNT NORMAL_COUNT (base_time now0);
  let s := time_shift now1 (mkSession alerts state) in
  let df := filter_alerts attack_filter severity_filter (frame s) in
  Some {| page_session := s;
          page_options := attack_filter_options (frame s);
          page_df := df;
          page_critical := tail 10 (critical df);
          page_full_log := tail 20 df |}.

(** ** Metrics (lines 133-137) *)

(** [(alerts_df["severity"] == level).sum()] *)
Definition severity_count (level : string) (df : list Alert) : nat :=
  length (filter (λ r, severity r = level) df).

(** The four numbers of the overview, left to right. *)
Record Metrics : Type := mkMetrics {
  total_alerts : nat;
  high_severity : nat;
  medium_severity : nat;
  normal_traffic : nat
}.

Definition metrics (df : list Alert) : Metrics :=
  {| total_alerts := length df;
     high_severity := severity_count "HIGH" df;
     medium_severity := severity_count "MEDIUM" df;
     normal_traffic := severity_count "NORMAL" df |}.

(** ** Charts (lines 186-224) *)

(** The number of rows of [df] under the key [k]: the size of a group of
    [groupby] and of [value_counts]. *)
Definition group_size {K : Type} `{EqDecision K} (key : Alert → K)
    (df : list Alert) (k : K) : nat :=
  length (filter (λ r, key r = k) df).

(** The number of rows of [df] with the given label. *)
Definition label_count (l : string) (df : list Alert) : nat :=
  group_size label df l.

Definition by_count_desc (a b : string * nat) : Prop := b.2 ≤ a.2.

Global Instance by_count_desc_dec : RelDecision by_count_desc.
Proof. intros a b. unfold by_count_desc. apply _. Defined.

(** Sorting by count, greatest first; an entry goes before the entries
    that are not greater, so that equal counts stay in their order. *)
Fixpoint insert_desc (x : string * nat) (l : list (string * nat))
    : list (string * nat) :=
  match l with
  | [] => [x]
  | y :: l' => if decide (x.2 < y.2) then y :: insert_desc x l' else x :: l
  end.

Fixpoint sort_desc (l : list (string * nat)) : list (string * nat) :=
  match l with
  | [] => []
  | x :: l' => insert_desc x (sort_desc l')
  end.

(** [df["label"].value_counts()]: one entry per label, the greatest count
    first.  The order among labels of equal count is that of [sort_desc];
    pandas leaves it to its sort, and no statement below depends on it. *)
Definition value_counts (df : list Alert) : list (string * nat) :=
  sort_desc ((λ l, (l, label_count l df)) <$> unique (label <$> df)).

(** [top = df["label"].value_counts().head(5)] and the bars of the chart,
    [top.index[::-1]] with [top.values[::-1]]. *)
Definition top (df : list Alert) : list (string * nat) :=
  take 5 (value_counts df).

Definition top_bars (df : list Alert) : list (string * nat) :=
  reverse (top df).

(** [pd.Grouper(key="timestamp", freq="5T")]: the start of the 5-minute
    bin of an instant; the bins start at midnight, hence at the multiples of
    five minutes. *)
Definition bin_start (t : Z) : Z := (t `div` freq_5T * freq_5T)%Z.

Definition trend_key (r : Alert) : Z * string :=
  (bin_start (timestamp r), severity r).

(** The order of the group keys: by bin, then by severity. *)
Definition key_le (a b : Z * string) : Prop :=
  (a.1 < b.1)%Z ∨ (a.1 = b.1 ∧ String.le a.2 b.2).

Global Instance key_le_dec : RelDecision key_le.
Proof. intros a b. unfold key_le. apply _. Defined.

(** [df.groupby([Grouper, "severity"]).size().reset_index(name="count")]:
    one row per pair of bin and severity that occurs, in key order, with
    the number of rows of [df] under that key. *)
Definition trend (df : list Alert) : list (Z * string * nat) :=
  (λ k, (k, group_size trend_key df k))
    <$> merge_sort key_le (remove_dups (trend_key <$> df)).

(** ** Tables (lines 251-278) *)

(** What the high-severity section shows: the success message when
    [critical.empty], else the last ten rows under [table_columns]. *)
Inductive Panel : Type :=
  | Success
  | Table (columns : list string) (rows : list Alert).

Definition high_severity_panel (df : list Alert) : Panel :=
  if decide (critical df = []) then Success
  else Table table_columns (tail 10 (critical df)).

(** The expander: the last twenty rows of the filtered frame. *)
Definition full_log (df : list Alert) : Panel :=
  Table table_columns (tail 20 df).

(** ** Sample data *)

(** The frame of three "dos" events, one "other" and one "normal" at base
    instant 0, and two stores that hold it. *)
Definition sample_df : list Alert :=
  [mkAlert 0 "dos" "HIGH" "DOS";
   mkAlert 10000000000 "dos" "HIGH" "DOS";
   mkAlert 20000000000 "dos" "HIGH" "DOS";
   mkAlert 0 "other" "MEDIUM" "OTHER";
   mkAlert 0 "normal" "NORMAL" "NORMAL"].

Definition sample_store : Store :=
  {| heap := {[ 0 := sample_df ]}; vars := {[ "alerts_df" := 0 ]} |}.

Definition sample_store' : Store :=
  {| heap := {[ 7 := sample_df; 2 := [] ]};
     vars := {[ "alerts_df" := 7; "df" := 2 ]} |}.

(** A line feed, the line terminator of POSIX systems, and an instant
    printed as its count of nanoseconds: what the examples below put in
    the place of the two parameters of [to_csv]. *)
Definition LF : string := String (ascii_of_nat 10) EmptyString.
Definition print_ns (t : Z) : string := pretty t.

(** * Properties *)

(** ** Case mapping *)

Lemma lower_char_idemp c : lower_char (lower_char c) = lower_char c.
Proof.
  destruct c as [[] [] [] [] [] [] [] []]; reflexivity.
Qed.

Lemma lower_idemp s : lower (lower s) = lower s.
Proof.
  induction s as [|c s IH]; [done|].
  unfold lower in *; simpl. by rewrite lower_char_idemp, IH.
Qed.

(** The classifier does not see the case of its argument. *)
Lemma classify_severity_lower attack :
  classify_severity (lower attack) = classify_severity attack.
Proof. unfold classify_severity. by rewrite lower_idemp. Qed.

(** ** Case-insensitive comparison *)

Lemma is_upper_spec c :
  is_upper c = true ↔ 65 ≤ nat_of_ascii c ≤ 90.
Proof.
  unfold is_upper. rewrite andb_true_iff, !Nat.leb_le. tauto.
Qed.

Lemma nat_of_ascii_inj c d : nat_of_ascii c = nat_of_ascii d → c = d.
Proof.
  intros Heq. rewrite <- (ascii_nat_embedding c), <- (ascii_nat_embedding d).
  by rewrite Heq.
Qed.

Lemma lower_char_upper c :
  is_upper c = true →
  nat_of_ascii (lower_char c) = nat_of_ascii c + 32.
Proof.
  intros Hup. unfold lower_char. rewrite Hup.
  apply is_upper_spec in Hup. apply nat_ascii_embedding. lia.
Qed.

Lemma lower_char_not_upper c : is_upper c = false → lower_char c = c.
Proof. intros Hup. unfold lower_char. by rewrite Hup. Qed.

Lemma same_letter_spec c d :
  same_letter c d = true
  ↔ nat_of_ascii c = nat_of_ascii d
    ∨ (65 ≤ nat_of_ascii c ≤ 90 ∧ nat_of_ascii d = nat_of_ascii c + 32)
    ∨ (65 ≤ nat_of_ascii d ≤ 90 ∧ nat_of_ascii c = nat_of_ascii d + 32).
Proof.
  unfold same_letter; cbv zeta.
  rewrite !orb_true_iff, !andb_true_iff, !Nat.eqb_eq, !Nat.leb_le. tauto.
Qed.

(** Characters that are the same letter have one lowercase form. *)
Lemma same_letter_lower_char c d :
  same_letter c d = true → lower_char c = lower_char d.
Proof.
  rewrite same_letter_spec. intros [Heq|[[Hc Hd]|[Hd Hc]]].
  - by rewrite (nat_of_ascii_inj c d Heq).
  - apply nat_of_ascii_inj.
    rewrite lower_char_upper by (by apply is_upper_spec).
    rewrite lower_char_not_upper; [lia|].
    apply not_true_is_false. rewrite is_upper_spec. lia.
  - apply nat_of_ascii_inj.
    rewrite (lower_char_upper d) by (by apply is_upper_spec).
    rewrite lower_char_not_upper; [lia|].
    apply not_true_is_false. rewrite is_upper_spec. lia.
Qed.

(** A character is the same letter as its lowercase form. *)
Lemma same_letter_lower_char_r c : same_letter c (lower_char c) = true.
Proof.
  apply same_letter_spec. destruct (is_upper c) eqn:Hup.
  - right; left. split; [by apply is_upper_spec|by apply lower_char_upper].
  - left. by rewrite lower_char_not_upper.
Qed.

Lemma equal_ignoring_case_lower_eq s t :
  equal_ignoring_case s t = true → lower s = lower t.
Proof.
  revert t. induction s as [|c s IH]; intros [|d t]; simpl; try done.
  rewrite andb_true_iff. intros [Hcd Hst]. unfold lower in *; simpl.
  by rewrite (same_letter_lower_char c d Hcd), (IH t Hst).
Qed.

Lemma equal_ignoring_case_lower_r s : equal_ignoring_case s (lower s) = true.
Proof.
  induction s as [|c s IH]; [done|].
  unfold lower in *; simpl. by rewrite same_letter_lower_char_r, IH.
Qed.

(** Against a string in lower case, equality up to case is equality after
    lowercasing. *)
Lemma equal_ignoring_case_lower s t :
  lower t = t → (equal_ignoring_case s t = true ↔ lower s = t).
Proof.
  intros Ht. split.
  - intros Heq. apply equal_ignoring_case_lower_eq in Heq. congruence.
  - intros <-. apply equal_ignoring_case_lower_r.
Qed.

(** ** The classifier *)

Lemma classify_severity_range attack :
  classify_severity attack ∈ severity_options.
Proof.
  unfold classify_severity, severity_options; cbv zeta.
  repeat case_decide; rewrite !elem_of_cons; auto.
Qed.

(** The decision of lines 108-115, in the order of the code, for any
    string and any case table. *)
Lemma classify_severity_with_cases str_lower attack :
  classify_severity_with str_lower attack ∈ ["HIGH"; "NORMAL"; "MEDIUM"]
  ∧ (classify_severity_with str_lower attack = "HIGH"
     ↔ str_lower attack ∈ HIGH_SEVERITY)
  ∧ (classify_severity_with str_lower attack = "NORMAL"
     ↔ (str_lower attack ∉ HIGH_SEVERITY) ∧ str_lower attack = "normal")
  ∧ (classify_severity_with str_lower attack = "MEDIUM"
     ↔ (str_lower attack ∉ HIGH_SEVERITY) ∧ str_lower attack ≠ "normal").
Proof.
  unfold classify_severity_with; cbv zeta.
  destruct (decide (str_lower attack ∈ HIGH_SEVERITY)) as [Hh|Hh];
    [|destruct (decide (str_lower attack = "normal")) as [Hn|Hn]];
    (split; [rewrite !elem_of_cons; auto|]);
    repeat split; try done; intros []; done.
Qed.

Lemma normal_not_HIGH_SEVERITY : "normal" ∉ HIGH_SEVERITY.
Proof.
  unfold HIGH_SEVERITY. rewrite !elem_of_cons, elem_of_nil.
  intros [?|[?|[?|[?|[?|[?|[?|[]]]]]]]]; discriminate.
Qed.

Lemma HIGH_SEVERITY_lower h : h ∈ HIGH_SEVERITY → lower h = h.
Proof.
  unfold HIGH_SEVERITY. rewrite !elem_of_cons, elem_of_nil.
  intros [->|[->|[->|[->|[->|[->|[->|[]]]]]]]]; reflexivity.
Qed.

(** An ASCII string is lowercased into a member of the list exactly when
    it is that member up to case. *)
Lemma lower_in_HIGH_SEVERITY attack :
  lower attack ∈ HIGH_SEVERITY
  ↔ ∃ h, h ∈ HIGH_SEVERITY ∧ equal_ignoring_case attack h = true.
Proof.
  split.
  - intros Hin. exists (lower attack). split; [done|].
    apply equal_ignoring_case_lower; [by apply HIGH_SEVERITY_lower|done].
  - intros (h & Hh & Heq).
    apply equal_ignoring_case_lower in Heq as ->;
      [done|by apply HIGH_SEVERITY_lower].
Qed.

(** C2: [classify_severity] is defined on every string and decides in the
    order of the code: HIGH when the lowercased string is in
    [HIGH_SEVERITY], else NORMAL when it is ["normal"], else MEDIUM, and
    this for any string whatever the case table of [str.lower] is.  On the
    strings of ASCII characters the lowercasing makes the decision blind to
    case: HIGH exactly for the members of the list written in any case,
    NORMAL exactly for "normal" written in any case, MEDIUM for every other
    string, the empty string among them. *)
Theorem classify_severity_decision (str_lower : string → string)
    (attack : string) :
  classify_severity_with str_lower attack ∈ ["HIGH"; "NORMAL"; "MEDIUM"]
  ∧ (classify_severity_with str_lower attack = "HIGH"
     ↔ str_lower attack ∈ HIGH_SEVERITY)
  ∧ (classify_severity_with str_lower attack = "NORMAL"
     ↔ (str_lower attack ∉ HIGH_SEVERITY) ∧ str_lower attack = "normal")
  ∧ (classify_severity_with str_lower attack = "MEDIUM"
     ↔ (str_lower attack ∉ HIGH_SEVERITY) ∧ str_lower attack ≠ "normal")
  ∧ (ascii_only attack = true →
     classify_severity attack = classify_severity_with lower attack
     ∧ (classify_severity attack = "HIGH"
        ↔ ∃ h, h ∈ HIGH_SEVERITY ∧ equal_ignoring_case attack h = true)
     ∧ (classify_severity attack = "NORMAL"
        ↔ equal_ignoring_case attack "normal" = true)
     ∧ (classify_severity attack = "MEDIUM"
        ↔ (∀ h, h ∈ HIGH_SEVERITY → equal_ignoring_case attack h = false)
          ∧ equal_ignoring_case attack "normal" = false))
  ∧ classify_severity EmptyString = "MEDIUM".
Proof.
  destruct (classify_severity_with_cases str_lower attack)
    as (Hrange & Hhigh & Hnormal & Hmedium).
  do 4 (split; [assumption|]).
  split; [|reflexivity].
  intros _. split; [reflexivity|].
  destruct (classify_severity_with_cases lower attack)
    as (_ & Hh & Hn & Hm).
  change (classify_severity_with lower attack)
    with (classify_severity attack) in Hh, Hn, Hm.
  assert (Hnorm : lower attack = "normal"
                  ↔ equal_ignoring_case attack "normal" = true).
  { split.
    - intros Heq. by apply equal_ignoring_case_lower.
    - intros Heq. by apply equal_ignoring_case_lower in Heq. }
  assert (Hnot : (lower attack ∉ HIGH_SEVERITY)
            ↔ ∀ h, h ∈ HIGH_SEVERITY → equal_ignoring_case attack h = false).
  { rewrite lower_in_HIGH_SEVERITY. split.
    - intros Hno h Hin.
      destruct (equal_ignoring_case attack h) eqn:Heq; [|done].
      destruct Hno. by exists h.
    - intros Hall (h & Hin & Heq). rewrite Hall in Heq; done. }
  split; [|split].
  - by rewrite Hh, lower_in_HIGH_SEVERITY.
  - rewrite Hn, <- Hnorm. split; [by intros [_ ?]|].
    intros Heq. split; [|done]. rewrite Heq. apply normal_not_HIGH_SEVERITY.
  - rewrite Hm, Hnot, Hnorm. split.
    + intros [Hall Hne]. split; [done|]. by apply not_true_is_false.
    + intros [Hall Hne]. split; [done|]. by rewrite Hne.
Qed.

(** The classifier on "BackDoor", read off the case-blind part of the
    decision. *)
Lemma classify_severity_decision_witness :
  classify_severity "BackDoor" = "HIGH".
Proof.
  destruct (classify_severity_decision lower "BackDoor")
    as (_ & _ & _ & _ & Hascii & _).
  destruct (Hascii eq_refl) as (_ & Hhigh & _ & _).
  apply Hhigh. exists "backdoor". split; [|reflexivity].
  unfold HIGH_SEVERITY. rewrite !elem_of_cons. tauto.
Defined.

Example classify_severity_examples :
  classify_severity "DoS" = "HIGH" ∧ classify_severity "Normal" = "NORMAL"
  ∧ classify_severity "other" = "MEDIUM" ∧ classify_severity "Probe " = "MEDIUM".
Proof. by vm_compute. Qed.

(** ** The generator *)

Lemma length_date_range start periods freq :
  length (date_range start periods freq) = periods.
Proof. unfold date_range. by rewrite length_fmap, length_seq. Qed.

Lemma lookup_date_range start periods freq (i : nat) :
  i < periods →
  date_range start periods freq !! i = Some (start + Z.of_nat i * freq)%Z.
Proof.
  intros Hi. unfold date_range.
  by rewrite list_lookup_fmap, lookup_seq_lt.
Qed.

Lemma length_rows_of ts attack : length (rows_of ts attack) = length ts.
Proof.
  unfold rows_of. rewrite length_zip_with, length_replicate. lia.
Qed.

Lemma lookup_rows_of ts attack (i : nat) :
  rows_of ts attack !! i = (λ t, (t, attack)) <$> ts !! i.
Proof.
  unfold rows_of. revert i.
  induction ts as [|t ts IH]; intros [|i]; simpl; auto.
Qed.

Lemma generate_rows high medium normal base :
  generate high medium normal base =
    Some (rows_of (timestamps_high base high) "dos"
            ++ rows_of (timestamps_medium base medium) "other"
            ++ rows_of (timestamps_normal base normal) "normal").
Proof.
  unfold generate, DataFrame, rows_of,
    timestamps_high, timestamps_medium, timestamps_normal.
  rewrite !length_date_range.
  rewrite decide_True by
    (rewrite !length_app, !length_date_range, !length_replicate; lia).
  f_equal.
  rewrite zip_with_app by
    (by rewrite length_date_range, length_replicate).
  rewrite zip_with_app by
    (by rewrite length_date_range, length_replicate).
  done.
Qed.

(** C3: for all counts and every base instant the generator returns a
    frame of [high + medium + normal] events: first [high] events "dos",
    the [i]-th of them [i] times 10 seconds after the base instant, then
    [medium] events "other" and then [normal] events "normal", each run
    starting again at the base instant with 5 minutes between neighbours. *)
Theorem generate_events (high medium normal : nat) (base : Z) :
  ∃ events,
    generate high medium normal base = Some events
    ∧ length events = high + medium + normal
    ∧ ∀ i : nat,
        events !! i =
          if decide (i < high)
          then Some ((base + Z.of_nat i * 10000000000)%Z, "dos")
          else if decide (i < high + medium)
          then Some ((base + Z.of_nat (i - high) * 300000000000)%Z, "other")
          else if decide (i < high + medium + normal)
          then Some ((base + Z.of_nat (i - high - medium) * 300000000000)%Z,
                     "normal")
          else None.
Proof.
  eexists. split; [apply generate_rows|].
  split.
  - rewrite !length_app, !length_rows_of.
    unfold timestamps_high, timestamps_medium, timestamps_normal.
    by rewrite !length_date_range, Nat.add_assoc.
  - intros i.
    assert (Hh : length (rows_of (timestamps_high base high) "dos") = high)
      by (rewrite length_rows_of; apply length_date_range).
    assert (Hm : length (rows_of (timestamps_medium base medium) "other") = medium)
      by (rewrite length_rows_of; apply length_date_range).
    destruct (decide (i < high)) as [Hi|Hi].
    { rewrite lookup_app_l by (rewrite Hh; lia). rewrite lookup_rows_of.
      unfold timestamps_high. by rewrite lookup_date_range. }
    rewrite lookup_app_r by (rewrite Hh; lia). rewrite Hh.
    destruct (decide (i < high + medium)) as [Hi'|Hi'].
    { rewrite lookup_app_l by (rewrite Hm; lia). rewrite lookup_rows_of.
      unfold timestamps_medium. by rewrite lookup_date_range by lia. }
    rewrite lookup_app_r by (rewrite Hm; lia). rewrite Hm, lookup_rows_of.
    unfold timestamps_normal.
    destruct (decide (i < high + medium + normal)) as [Hi''|Hi''].
    { by rewrite lookup_date_range by lia. }
    rewrite lookup_ge_None_2; [done|].
    rewrite length_date_range. lia.
Qed.

Lemma alerts_df_rows high medium normal base :
  0 < high + medium + normal →
  alerts_df high medium normal base =
    Some (classify (rows_of (timestamps_high base high) "dos"
                      ++ rows_of (timestamps_medium base medium) "other"
                      ++ rows_of (timestamps_normal base normal) "normal")).
Proof.
  intros Hcount. unfold alerts_df. rewrite generate_rows.
  cbn [mbind option_bind]. rewrite decide_False; [done|].
  intros Hnil. apply (f_equal length) in Hnil.
  rewrite !length_app, !length_rows_of in Hnil.
  unfold timestamps_high, timestamps_medium, timestamps_normal in Hnil.
  rewrite !length_date_range in Hnil. simpl in Hnil. lia.
Qed.

(** Without rows there is no frame for the rest of the script. *)
Lemma alerts_df_no_rows base : alerts_df 0 0 0 base = None.
Proof. reflexivity. Qed.

(** The generated frame, for counts that are not all zero: its length and
    the invariant of the data model. *)
Lemma alerts_df_frame high medium normal base :
  0 < high + medium + normal →
  ∃ alerts,
    alerts_df high medium normal base = Some alerts
    ∧ length alerts = high + medium + normal
    ∧ Forall (λ r, severity r = classify_severity (attack_type r)) alerts.
Proof.
  intros Hcount.
  eexists. split; [by apply alerts_df_rows|]. split.
  - unfold classify. rewrite length_fmap, !length_app, !length_rows_of.
    unfold timestamps_high, timestamps_medium, timestamps_normal.
    rewrite !length_date_range. lia.
  - unfold classify. apply Forall_fmap, Forall_true. by intros [t a].
Qed.

(** The frame of the script has 15999 rows. *)
Lemma count_total : HIGH_COUNT + MEDIUM_COUNT + NORMAL_COUNT = Z.to_nat 15999.
Proof. unfold HIGH_COUNT, MEDIUM_COUNT, NORMAL_COUNT. lia. Qed.

(** ** The filters *)

Section filter_facts.
Context {A : Type} (P : A → Prop) `{!∀ x, Decision (P x)}.

Lemma filter_keeps_all (l : list A) : Forall P l → filter P l = l.
Proof.
  induction 1 as [|x l Hx _ IH]; [done|].
  by rewrite filter_cons_True, IH.
Qed.

Lemma filter_keeps_none (l : list A) : (∀ x, ¬ P x) → filter P l = [].
Proof.
  intros HP. induction l as [|x l IH]; [done|].
  by rewrite filter_cons_False.
Qed.
End filter_facts.

Lemma classify_consistent events : consistent (classify events).
Proof.
  unfold consistent, classify. apply Forall_fmap, Forall_true.
  by intros [t a].
Qed.

Lemma apply_shift_consistent now df :
  consistent df → consistent (apply_shift now df).
Proof.
  unfold apply_shift, consistent. intros Hdf.
  destruct (max_timestamp df); [|done].
  apply Forall_fmap. eapply Forall_impl; [exact Hdf|]. by intros r Hr.
Qed.

Lemma time_shift_consistent now s :
  consistent (frame s) → consistent (frame (time_shift now s)).
Proof.
  intros Hs. unfold time_shift.
  destruct (session_state s !! "time_shift"); [done|].
  by apply apply_shift_consistent.
Qed.

Lemma consistent_severity_options df :
  consistent df → Forall (λ r, severity r ∈ severity_options) df.
Proof.
  intros Hdf. eapply Forall_impl; [exact Hdf|].
  intros r ->. apply classify_severity_range.
Qed.

Lemma filter_attack_All df : filter_attack "All" df = df.
Proof. done. Qed.

Lemma filter_severity_nil df : filter_severity [] df = [].
Proof.
  apply filter_keeps_none. intros r Hr. by apply elem_of_nil in Hr.
Qed.

(** C4: with the choice "All" and the three severities selected the filter
    returns the frame it was given: the same rows in the same order, hence
    the same count. *)
Theorem filter_alerts_all (df : list Alert) :
  consistent df →
  filter_alerts "All" ["HIGH"; "MEDIUM"; "NORMAL"] df = df
  ∧ length (filter_alerts "All" ["HIGH"; "MEDIUM"; "NORMAL"] df) = length df.
Proof.
  intros Hdf.
  assert (filter_alerts "All" ["HIGH"; "MEDIUM"; "NORMAL"] df = df) as ->.
  { unfold filter_alerts. rewrite filter_attack_All.
    apply filter_keeps_all, consistent_severity_options, Hdf. }
  done.
Qed.

Lemma sample_df_generated : alerts_df 3 1 1 0 = Some sample_df.
Proof. by vm_compute. Qed.

Lemma filter_alerts_all_witness :
  filter_alerts "All" ["HIGH"; "MEDIUM"; "NORMAL"] sample_df = sample_df
  ∧ length (filter_alerts "All" ["HIGH"; "MEDIUM"; "NORMAL"] sample_df)
    = length sample_df.
Proof.
  apply (filter_alerts_all sample_df).
  unfold consistent, sample_df. repeat constructor.
Defined.

(** C5: with no severity selected the filter returns the empty frame,
    whatever the frame and the attack-type choice. *)
Theorem filter_alerts_no_severity (attack_filter : string) (df : list Alert) :
  filter_alerts attack_filter [] df = [].
Proof. unfold filter_alerts. apply filter_severity_nil. Qed.

(** C10: the two stages commute, and either order keeps exactly the rows
    that pass both tests at once. *)
Theorem filter_stages_commute (attack_filter : string)
    (severity_filter : list string) (df : list Alert) :
  filter_severity severity_filter (filter_attack attack_filter df)
  = filter_attack attack_filter (filter_severity severity_filter df)
  ∧ filter_alerts attack_filter severity_filter df
    = filter (λ r, (attack_filter = "All" ∨ attack_type r = attack_filter)
                   ∧ severity r ∈ severity_filter) df.
Proof.
  unfold filter_alerts, filter_severity, filter_attack.
  destruct (decide (attack_filter ≠ "All")) as [Hne|Heq].
  - rewrite !list_filter_filter.
    split; apply list_filter_iff; intros r; tauto.
  - apply dec_stable in Heq.
    split; [done|]. apply list_filter_iff; intros r; tauto.
Qed.

Example filter_dos :
  filter_alerts "dos" ["HIGH"; "MEDIUM"; "NORMAL"] sample_df = take 3 sample_df.
Proof. by vm_compute. Qed.

(** ** The time shift *)

Local Open Scope Z_scope.

Lemma max_timestamp_None df : max_timestamp df = None ↔ df = [].
Proof. by destruct df. Qed.

(** [max_timestamp] is the greatest timestamp of the frame. *)
Lemma max_timestamp_upper df m r :
  max_timestamp df = Some m → r ∈ df → timestamp r ≤ m.
Proof.
  revert m. induction df as [|x df IH]; intros m Hm Hr.
  - by apply elem_of_nil in Hr.
  - simpl in Hm. apply elem_of_cons in Hr as [->|Hr].
    + destruct (max_timestamp df); simplify_eq; lia.
    + destruct (max_timestamp df) as [m'|] eqn:Hdf.
      * specialize (IH m' eq_refl Hr). simplify_eq. lia.
      * apply max_timestamp_None in Hdf. subst df. by apply elem_of_nil in Hr.
Qed.

Lemma max_timestamp_attained df m :
  max_timestamp df = Some m → ∃ r, r ∈ df ∧ timestamp r = m.
Proof.
  revert m. induction df as [|x df IH]; intros m Hm; [done|].
  simpl in Hm. destruct (max_timestamp df) as [m'|] eqn:Hdf.
  - destruct (IH m' eq_refl) as (r & Hr & Hrm).
    destruct (Z.max_spec (timestamp x) m') as [[_ Hmax]|[_ Hmax]];
      simplify_eq.
    + exists r. split; [apply elem_of_cons; by right|congruence].
    + exists x. split; [apply elem_of_cons; by left|congruence].
  - simplify_eq. exists x. split; [apply elem_of_cons; by left|done].
Qed.

Lemma max_timestamp_add_timedelta shift df :
  max_timestamp (add_timedelta shift <$> df)
  = (λ m, m + shift) <$> max_timestamp df.
Proof.
  induction df as [|r df IH]; [done|].
  cbn [fmap list_fmap max_timestamp]. fold (fmap (add_timedelta shift) df).
  rewrite IH. destruct (max_timestamp df) as [m|]; simpl; f_equal; lia.
Qed.

Lemma apply_shift_max now df :
  df ≠ [] → max_timestamp (apply_shift now df) = Some now.
Proof.
  intros Hdf. unfold apply_shift.
  destruct (max_timestamp df) as [latest|] eqn:Hmax.
  - rewrite max_timestamp_add_timedelta, Hmax. simpl. f_equal. lia.
  - by apply max_timestamp_None in Hmax.
Qed.

Lemma time_shift_first now s :
  session_state s !! "time_shift" = None →
  time_shift now s =
    {| frame := apply_shift now (frame s);
       session_state := <["time_shift" := true]> (session_state s) |}.
Proof. intros Hs. unfold time_shift. by rewrite Hs. Qed.

Lemma time_shift_again now s :
  is_Some (session_state s !! "time_shift") → time_shift now s = s.
Proof. intros [v Hs]. unfold time_shift. by rewrite Hs. Qed.

Lemma time_shift_sets_flag now s :
  is_Some (session_state (time_shift now s) !! "time_shift").
Proof.
  unfold time_shift.
  destruct (session_state s !! "time_shift") as [v|] eqn:Hs; simpl.
  - by rewrite Hs.
  - by rewrite lookup_insert_eq.
Qed.

(** C6: the guarded block run twice leaves what one run leaves, the frame
    and the flag alike, whatever the clock shows at the second run; from a
    fresh session that is the frame shifted once and the flag set. *)
Theorem time_shift_idempotent (now now' : Z) (s : Session) (df : list Alert) :
  time_shift now' (time_shift now s) = time_shift now s
  ∧ is_Some (session_state (time_shift now s) !! "time_shift")
  ∧ time_shift now' (time_shift now (mkSession df ∅))
    = mkSession (apply_shift now df) {["time_shift" := true]}.
Proof.
  split; [|split].
  - apply time_shift_again, time_shift_sets_flag.
  - apply time_shift_sets_flag.
  - rewrite time_shift_again by apply time_shift_sets_flag.
    rewrite time_shift_first by apply lookup_empty.
    simpl. by rewrite insert_empty.
Qed.

(** C7: in a fresh session the block adds one and the same duration,
    [now] minus the latest timestamp, to every row; the difference and the
    order of any two timestamps are what they were, and the latest
    timestamp of the shifted frame is [now]: no row is later than [now]
    and some row is at [now]. *)
Theorem time_shift_spacing (now : Z) (s : Session) (i j : nat) (a b : Alert) :
  session_state s !! "time_shift" = None →
  frame s !! i = Some a →
  frame s !! j = Some b →
  ∃ latest a' b',
    max_timestamp (frame s) = Some latest
    ∧ frame (time_shift now s) = add_timedelta (now - latest) <$> frame s
    ∧ frame (time_shift now s) !! i = Some a'
    ∧ frame (time_shift now s) !! j = Some b'
    ∧ timestamp a' - timestamp b' = timestamp a - timestamp b
    ∧ (timestamp a' ≤ timestamp b' ↔ timestamp a ≤ timestamp b)
    ∧ max_timestamp (frame (time_shift now s)) = Some now
    ∧ (∀ r, r ∈ frame s → timestamp r ≤ latest)
    ∧ (∃ r, r ∈ frame s ∧ timestamp r = latest)
    ∧ (∀ r, r ∈ frame (time_shift now s) → timestamp r ≤ now)
    ∧ (∃ r, r ∈ frame (time_shift now s) ∧ timestamp r = now).
Proof.
  intros Hs Ha Hb. rewrite time_shift_first by done. simpl.
  assert (Hne : frame s ≠ []) by (intros Hnil; by rewrite Hnil in Ha).
  pose proof (apply_shift_max now _ Hne) as Hmax.
  unfold apply_shift in *.
  destruct (max_timestamp (frame s)) as [latest|] eqn:Hlatest;
    [|by apply max_timestamp_None in Hlatest].
  exists latest, (add_timedelta (now - latest) a),
    (add_timedelta (now - latest) b).
  rewrite !list_lookup_fmap, Ha, Hb. simpl.
  do 4 (split; [done|]). split; [lia|]. split; [lia|]. split; [done|].
  split; [|split; [|split]].
  - intros r Hr. by apply (max_timestamp_upper (frame s)).
  - by apply max_timestamp_attained.
  - intros r Hr. by apply (max_timestamp_upper _ _ _ Hmax).
  - by apply max_timestamp_attained.
Qed.

Lemma time_shift_spacing_witness :
  ∃ latest a' b',
    max_timestamp sample_df = Some latest
    ∧ frame (time_shift 5 (mkSession sample_df ∅))
      = add_timedelta (5 - latest) <$> sample_df
    ∧ frame (time_shift 5 (mkSession sample_df ∅)) !! 0%nat = Some a'
    ∧ frame (time_shift 5 (mkSession sample_df ∅)) !! 2%nat = Some b'
    ∧ timestamp a' - timestamp b' = 0 - 20000000000
    ∧ (timestamp a' ≤ timestamp b' ↔ 0 ≤ 20000000000)
    ∧ max_timestamp (frame (time_shift 5 (mkSession sample_df ∅))) = Some 5
    ∧ (∀ r, r ∈ sample_df → timestamp r ≤ latest)
    ∧ (∃ r, r ∈ sample_df ∧ timestamp r = latest)
    ∧ (∀ r, r ∈ frame (time_shift 5 (mkSession sample_df ∅)) →
         timestamp r ≤ 5)
    ∧ (∃ r, r ∈ frame (time_shift 5 (mkSession sample_df ∅))
            ∧ timestamp r = 5).
Proof.
  apply (time_shift_spacing 5 (mkSession sample_df ∅) 0 2
           (mkAlert 0 "dos" "HIGH" "DOS")
           (mkAlert 20000000000 "dos" "HIGH" "DOS"));
    reflexivity.
Defined.

Local Close Scope Z_scope.

(** ** The options of the attack-type filter *)

Lemma elem_of_unique_from seen l x :
  x ∈ unique_from seen l ↔ x ∈ l ∧ x ∉ seen.
Proof.
  revert seen. induction l as [|y l IH]; intros seen; simpl.
  - rewrite elem_of_nil. tauto.
  - destruct (decide (y ∈ seen)) as [Hy|Hy].
    + rewrite IH, elem_of_cons. split; [tauto|].
      intros [[->|Hx] Hseen]; tauto.
    + rewrite !elem_of_cons, IH, elem_of_cons.
      destruct (decide (x = y)) as [->|Hxy]; tauto.
Qed.

Lemma NoDup_unique_from seen l : NoDup (unique_from seen l).
Proof.
  revert seen. induction l as [|y l IH]; intros seen; simpl.
  - constructor.
  - destruct (decide (y ∈ seen)); [apply IH|].
    constructor; [|apply IH].
    rewrite elem_of_unique_from, elem_of_cons. tauto.
Qed.

Lemma elem_of_unique l x : x ∈ unique l ↔ x ∈ l.
Proof.
  unfold unique. rewrite elem_of_unique_from, elem_of_nil. tauto.
Qed.

Lemma sorted_Permutation l : sorted l ≡ₚ l.
Proof. apply merge_sort_Permutation. Qed.

Lemma sorted_StronglySorted l : StronglySorted String.le (sorted l).
Proof. apply (StronglySorted_merge_sort String.le). Qed.

(** C9: the select box offers "All" first and then the attack types of the
    frame, each once, in ascending order; a string is among them exactly
    when some row has it as attack type. *)
Theorem attack_filter_options_sorted (df : list Alert) :
  ∃ types,
    attack_filter_options df = "All" :: types
    ∧ StronglySorted String.le types
    ∧ NoDup types
    ∧ ∀ a, a ∈ types ↔ ∃ r, r ∈ df ∧ attack_type r = a.
Proof.
  exists (sorted (unique (attack_type <$> df))).
  split; [done|]. split; [apply sorted_StronglySorted|]. split.
  - rewrite sorted_Permutation. apply NoDup_unique_from.
  - intros a. rewrite sorted_Permutation, elem_of_unique, list_elem_of_fmap.
    split; intros (r & H1 & H2); exists r; auto.
Qed.

Example attack_filter_options_sample :
  attack_filter_options sample_df = ["All"; "dos"; "normal"; "other"].
Proof. by vm_compute. Qed.

(** ** The filter block and the base frame *)

Lemma preserves_refl σ : preserves σ σ.
Proof. by split. Qed.

Lemma preserves_trans σ1 σ2 σ3 :
  preserves σ1 σ2 → preserves σ2 σ3 → preserves σ1 σ3.
Proof.
  intros [Hh12 Hv12] [Hh23 Hv23]. split.
  - intros ref v Hv. by apply Hh23, Hh12.
  - intros x Hx. rewrite Hv23 by done. by apply Hv12.
Qed.

Lemma assign_new_preserves v σ : preserves σ (assign_new "df" v σ).
Proof.
  split; simpl.
  - intros ref w Hw. rewrite lookup_insert_ne; [done|].
    intros <-. apply (is_fresh (dom (heap σ))), elem_of_dom. by exists w.
  - intros x Hx. by rewrite lookup_insert_ne.
Qed.

Lemma read_assign_new x v σ : read x (assign_new x v σ) = Some v.
Proof.
  unfold read, assign_new; simpl.
  rewrite lookup_insert_eq; simpl. apply lookup_insert_eq.
Qed.

Lemma read_preserved x σ σ' v :
  x ≠ "df" → preserves σ σ' → read x σ = Some v → read x σ' = Some v.
Proof.
  intros Hx [Hh Hv] Hr. unfold read in *. rewrite Hv by done.
  destruct (vars σ !! x) as [ref|]; [|done]. simpl in *. by apply Hh.
Qed.

Lemma filter_block_run attack_filter severity_filter σ base :
  read "alerts_df" σ = Some base →
  ∃ σ', filter_block attack_filter severity_filter σ = Some σ'
    ∧ preserves σ σ'
    ∧ read "df" σ' = Some (filter_alerts attack_filter severity_filter base).
Proof.
  intros Hbase. unfold filter_block. rewrite Hbase; simpl.
  pose proof (assign_new_preserves base σ) as H1.
  pose proof (read_assign_new "df" base σ) as R1.
  set (σ1 := assign_new "df" base σ) in *.
  unfold filter_alerts, filter_severity, filter_attack.
  destruct (decide (attack_filter ≠ "All")) as [Hne|Heq]; simpl.
  - rewrite R1; simpl. rewrite read_assign_new; simpl.
    eexists. split; [done|]. split; [|apply read_assign_new].
    eapply preserves_trans; [exact H1|].
    eapply preserves_trans; apply assign_new_preserves.
  - rewrite R1; simpl.
    eexists. split; [done|]. split; [|apply read_assign_new].
    eapply preserves_trans; [exact H1|]. apply assign_new_preserves.
Qed.

(** C8: the block leaves the base frame as it was: [alerts_df] names the
    same object, no object that existed before the block is changed, and
    [df] names a frame that is a function of the base frame and the two
    choices alone, so that two runs on the same frame and choices give the
    same subset. *)
Theorem filter_block_frame (attack_filter : string)
    (severity_filter : list string) (σ1 σ2 : Store) (base : list Alert) :
  read "alerts_df" σ1 = Some base →
  read "alerts_df" σ2 = Some base →
  ∃ σ1' σ2',
    filter_block attack_filter severity_filter σ1 = Some σ1'
    ∧ filter_block attack_filter severity_filter σ2 = Some σ2'
    ∧ vars σ1' !! "alerts_df" = vars σ1 !! "alerts_df"
    ∧ (∀ ref v, heap σ1 !! ref = Some v → heap σ1' !! ref = Some v)
    ∧ read "alerts_df" σ1' = Some base
    ∧ read "df" σ1' = Some (filter_alerts attack_filter severity_filter base)
    ∧ read "df" σ2' = read "df" σ1'.
Proof.
  intros Hb1 Hb2.
  destruct (filter_block_run attack_filter severity_filter σ1 base Hb1)
    as (σ1' & Hrun1 & Hpres1 & Hdf1).
  destruct (filter_block_run attack_filter severity_filter σ2 base Hb2)
    as (σ2' & Hrun2 & _ & Hdf2).
  exists σ1', σ2'. repeat split; try done.
  - by apply Hpres1.
  - apply Hpres1.
  - by eapply read_preserved.
  - by rewrite Hdf1, Hdf2.
Qed.

Lemma filter_block_frame_witness :
  ∃ σ1' σ2',
    filter_block "dos" ["HIGH"] sample_store = Some σ1'
    ∧ filter_block "dos" ["HIGH"] sample_store' = Some σ2'
    ∧ vars σ1' !! "alerts_df" = vars sample_store !! "alerts_df"
    ∧ (∀ ref v, heap sample_store !! ref = Some v → heap σ1' !! ref = Some v)
    ∧ read "alerts_df" σ1' = Some sample_df
    ∧ read "df" σ1' = Some (filter_alerts "dos" ["HIGH"] sample_df)
    ∧ read "df" σ2' = read "df" σ1'.
Proof.
  apply (filter_block_frame "dos" ["HIGH"] sample_store sample_store' sample_df);
    reflexivity.
Defined.

(** ** The CSV export *)

Example alerts_columns_eval :
  alerts_columns = ["timestamp"; "attack_type"; "severity"; "label"].
Proof. reflexivity. Qed.

Lemma concat_cons_empty (x : string) (l : list string) :
  String.concat EmptyString (x :: l) = x +:+ String.concat EmptyString l.
Proof.
  destruct l as [|y l]; [|reflexivity].
  induction x as [|c x IH]; [reflexivity|].
  change (String c x = String c (x +:+ String.concat EmptyString [])).
  f_equal. exact IH.
Qed.

Section to_csv_facts.
Variable format_timestamp : Z → string.
Variable lineterminator : string.

Lemma cells_alerts_columns r :
  mapM (cell format_timestamp r) alerts_columns = Some (alerts_record format_timestamp r).
Proof. reflexivity. Qed.

Lemma rows_alerts_columns df :
  mapM (λ r, mapM (cell format_timestamp r) alerts_columns) df
  = Some (alerts_record format_timestamp <$> df).
Proof.
  induction df as [|r df IH]; [done|].
  cbn [mapM]. rewrite cells_alerts_columns, IH. done.
Qed.

Lemma csv_records_alerts_columns df :
  csv_records format_timestamp alerts_columns df
  = Some (["timestamp"; "attack_type"; "severity"; "label"]
            :: (alerts_record format_timestamp <$> df)).
Proof. unfold csv_records. by rewrite rows_alerts_columns. Qed.

Lemma download_data_text df :
  download_data format_timestamp lineterminator df
  = Some (("timestamp,attack_type,severity,label" +:+ lineterminator)
            +:+ String.concat EmptyString
                  (csv_line lineterminator <$> (alerts_record format_timestamp <$> df))).
Proof.
  unfold download_data, to_csv. rewrite csv_records_alerts_columns.
  cbn [mbind option_bind fmap list_fmap]. by rewrite concat_cons_empty.
Qed.
End to_csv_facts.

(** C1 (amended): the download is the filtered frame with all of its
    columns: the header is [timestamp,attack_type,severity,label], every
    row of the filtered frame gives one record of these four fields in this
    order, and a filtered frame without rows gives the header line alone. *)
Theorem download_data_columns (format_timestamp : Z → string)
    (lineterminator : string) (attack_filter : string)
    (severity_filter : list string) (alerts : list Alert) :
  let df := filter_alerts attack_filter severity_filter alerts in
  csv_records format_timestamp alerts_columns df
  = Some (["timestamp"; "attack_type"; "severity"; "label"]
            :: (alerts_record format_timestamp <$> df))
  ∧ download_data format_timestamp lineterminator df
    = Some (("timestamp,attack_type,severity,label" +:+ lineterminator)
              +:+ String.concat EmptyString
                    (csv_line lineterminator
                       <$> (alerts_record format_timestamp <$> df)))
  ∧ download_data format_timestamp lineterminator [] 
    = Some ("timestamp,attack_type,severity,label" +:+ lineterminator)
  ∧ download_data format_timestamp lineterminator
      (filter_alerts attack_filter [] alerts)
    = Some ("timestamp,attack_type,severity,label" +:+ lineterminator).
Proof.
  intros df. split; [apply csv_records_alerts_columns|].
  split; [apply download_data_text|].
  unfold filter_alerts. rewrite filter_severity_nil. split; reflexivity.
Qed.

(** The claimed header [timestamp,label,severity] is the header of the two
    tables of the page, not of the download: with no severity selected the
    download of the sample frame is the line of the four column names. *)
Lemma download_data_header_counterexample :
  let data := download_data print_ns LF (filter_alerts "All" [] sample_df) in
  data = Some ("timestamp,attack_type,severity,label" +:+ LF)
  ∧ data ≠ Some ("timestamp,label,severity" +:+ LF).
Proof. split; [reflexivity|discriminate]. Qed.

Example table_header :
  to_csv print_ns LF table_columns [] = Some ("timestamp,label,severity" +:+ LF).
Proof. reflexivity. Qed.

Example download_data_sample :
  csv_records print_ns alerts_columns (filter_alerts "All" ["NORMAL"] sample_df)
  = Some [["timestamp"; "attack_type"; "severity"; "label"];
          ["0"; "normal"; "NORMAL"; "NORMAL"]].
Proof. by vm_compute. Qed.

(** ** The script as a whole *)

Lemma length_apply_shift now df : length (apply_shift now df) = length df.
Proof.
  unfold apply_shift. destruct (max_timestamp df); [|done].
  apply length_fmap.
Qed.

Lemma length_time_shift now s :
  length (frame (time_shift now s)) = length (frame s).
Proof.
  unfold time_shift. destruct (session_state s !! "time_shift"); [done|].
  apply length_apply_shift.
Qed.

(** Every run renders a page; the frame behind it has the 15999 rows of
    the generator and satisfies the invariant of the data model. *)
Lemma run_renders now0 now1 state attack_filter severity_filter :
  ∃ page,
    run now0 now1 state attack_filter severity_filter = Some page
    ∧ consistent (frame (page_session page))
    ∧ length (frame (page_session page)) = Z.to_nat 15999.
Proof.
  destruct (alerts_df_frame HIGH_COUNT MEDIUM_COUNT NORMAL_COUNT
              (base_time now0)) as (alerts & Halerts & Hlen & Hcons).
  { unfold HIGH_COUNT, MEDIUM_COUNT, NORMAL_COUNT. lia. }
  unfold run. rewrite Halerts. cbn [mbind option_bind].
  eexists. split; [reflexivity|]. cbn [page_session]. split.
  - apply time_shift_consistent. exact Hcons.
  - rewrite length_time_shift. cbn [frame]. rewrite Hlen. apply count_total.
Qed.

(** The frame is rebuilt by every run of the script, and a run that finds
    the flag set shows the rebuilt frame as the generator made it. *)
Lemma run_with_flag now0 now1 state attack_filter severity_filter :
  is_Some (state !! "time_shift") →
  frame ∘ page_session <$> run now0 now1 state attack_filter severity_filter
  = alerts_df HIGH_COUNT MEDIUM_COUNT NORMAL_COUNT (base_time now0).
Proof.
  intros Hflag. unfold run.
  destruct (alerts_df HIGH_COUNT MEDIUM_COUNT NORMAL_COUNT (base_time now0))
    as [alerts|]; [|done].
  cbn [mbind option_bind fmap option_fmap option_map compose page_session].
  by rewrite time_shift_again.
Qed.

(** * Further properties of the script *)

(** ** Case and classification *)

Lemma lower_upper_char c : lower_char (upper_char c) = lower_char c.
Proof.
  destruct c as [[] [] [] [] [] [] [] []]; reflexivity.
Qed.

Lemma lower_upper s : lower (upper s) = lower s.
Proof.
  induction s as [|c s IH]; [done|].
  unfold lower, upper in *; simpl. by rewrite lower_upper_char, IH.
Qed.

(** X1: On strings of ASCII characters the classifier is blind to case:
    two strings that are equal up to case get one severity, the upper-cased
    and the lower-cased form of a string get the severity of the string,
    and so the severity of a row can be read off its upper-case label as
    well as off its attack type. *)
Theorem classify_severity_case (attack other : string) (t : Z) :
  ascii_only attack = true →
  ascii_only other = true →
  equal_ignoring_case other attack = true →
  classify_severity other = classify_severity attack
  ∧ classify_severity (upper attack) = classify_severity attack
  ∧ classify_severity (lower attack) = classify_severity attack
  ∧ classify_severity (label (classify_event (t, attack)))
    = severity (classify_event (t, attack)).
Proof.
  intros _ _ Heq. apply equal_ignoring_case_lower_eq in Heq.
  unfold classify_severity, classify_event; simpl.
  rewrite Heq, !lower_upper, lower_idemp. done.
Qed.

Lemma classify_severity_case_witness :
  classify_severity "DoS" = classify_severity "dos"
  ∧ classify_severity (upper "dos") = classify_severity "dos"
  ∧ classify_severity (lower "dos") = classify_severity "dos"
  ∧ classify_severity (label (classify_event (0%Z, "dos")))
    = severity (classify_event (0%Z, "dos")).
Proof. apply (classify_severity_case "dos" "DoS" 0); reflexivity. Defined.

(** ** The metrics *)

Lemma filter_add_timedelta (P : Alert → Prop) `{!∀ r, Decision (P r)}
    (d : Z) (df : list Alert) :
  (∀ r, P (add_timedelta d r) ↔ P r) →
  filter P (add_timedelta d <$> df) = add_timedelta d <$> filter P df.
Proof.
  intros HP. induction df as [|r df IH]; [done|].
  rewrite fmap_cons. destruct (decide (P r)) as [Hr|Hr].
  - rewrite (filter_cons_True P r) by done.
    rewrite filter_cons_True by (by apply HP).
    by rewrite IH.
  - rewrite (filter_cons_False P r) by done.
    rewrite filter_cons_False by (by rewrite HP).
    done.
Qed.

Lemma add_timedelta_0 r : add_timedelta 0 r = r.
Proof. destruct r as [t a sv l]. unfold add_timedelta; simpl. f_equal. lia. Qed.

(** The frame after the block of lines 123-126 is the frame before it with
    one duration added to every timestamp. *)
Lemma time_shift_offset now s :
  ∃ d, frame (time_shift now s) = add_timedelta d <$> frame s.
Proof.
  unfold time_shift, apply_shift.
  destruct (session_state s !! "time_shift"); simpl;
    [|destruct (max_timestamp (frame s)) as [latest|]].
  - exists 0%Z. induction (frame s) as [|r df IH]; [done|].
    by rewrite fmap_cons, add_timedelta_0, <- IH.
  - by exists (now - latest)%Z.
  - exists 0%Z. induction (frame s) as [|r df IH]; [done|].
    by rewrite fmap_cons, add_timedelta_0, <- IH.
Qed.

Lemma severity_count_add_timedelta level d df :
  severity_count level (add_timedelta d <$> df) = severity_count level df.
Proof.
  unfold severity_count. rewrite filter_add_timedelta by done.
  apply length_fmap.
Qed.

Lemma severity_count_app level df1 df2 :
  severity_count level (df1 ++ df2)
  = severity_count level df1 + severity_count level df2.
Proof. unfold severity_count. by rewrite filter_app, length_app. Qed.

Lemma severity_count_rows level ts attack :
  severity_count level (classify (rows_of ts attack))
  = if decide (classify_severity attack = level) then length ts else 0.
Proof.
  unfold severity_count, classify, rows_of.
  induction ts as [|t ts IH]; [by case_decide|].
  cbn [length replicate zip_with fmap list_fmap].
  rewrite filter_cons. cbn [classify_event severity snd].
  destruct (decide (classify_severity attack = level)) as [Heq|Hne].
  - cbn [length]. f_equal. exact IH.
  - exact IH.
Qed.

Lemma severity_partition df :
  consistent df →
  length df = severity_count "HIGH" df + severity_count "MEDIUM" df
              + severity_count "NORMAL" df.
Proof.
  unfold severity_count.
  induction 1 as [|r df Hr _ IH]; [done|].
  pose proof (classify_severity_range (attack_type r)) as Hrange.
  rewrite <- Hr in Hrange. unfold severity_options in Hrange.
  rewrite !filter_cons. cbn [length]. rewrite IH.
  rewrite !elem_of_cons, elem_of_nil in Hrange.
  destruct Hrange as [->|[->|[->|[]]]]; simpl; lia.
Qed.

(** X2: Lines 134-137: for a frame that satisfies the invariant of the data
    model the three severity metrics add up to the total. *)
Theorem metrics_add_up (df : list Alert) :
  consistent df →
  total_alerts (metrics df)
  = high_severity (metrics df) + medium_severity (metrics df)
    + normal_traffic (metrics df).
Proof. intros Hdf. unfold metrics; simpl. by apply severity_partition. Qed.

Lemma metrics_add_up_witness :
  total_alerts (metrics sample_df)
  = high_severity (metrics sample_df) + medium_severity (metrics sample_df)
    + normal_traffic (metrics sample_df).
Proof.
  apply (metrics_add_up sample_df).
  unfold consistent, sample_df. repeat constructor.
Defined.

(** X3: When the generator makes at least one event, the metrics of the
    generated frame are the three counts of the generator, in a first run
    of a session as in a later one. *)
Theorem metrics_generated (high medium normal : nat) (base now : Z)
    (state : gmap string bool) :
  0 < high + medium + normal →
  ∃ alerts,
    alerts_df high medium normal base = Some alerts
    ∧ metrics (frame (time_shift now (mkSession alerts state)))
      = mkMetrics (high + medium + normal) high medium normal.
Proof.
  intros Hcount.
  eexists. split; [by apply alerts_df_rows|].
  destruct (time_shift_offset now
    (mkSession (classify (rows_of (timestamps_high base high) "dos"
       ++ rows_of (timestamps_medium base medium) "other"
       ++ rows_of (timestamps_normal base normal) "normal")) state))
    as [d ->].
  cbn [frame]. unfold metrics.
  rewrite length_fmap, !severity_count_add_timedelta.
  unfold classify at 2 3 4. rewrite !fmap_app.
  fold (classify (rows_of (timestamps_high base high) "dos")).
  fold (classify (rows_of (timestamps_medium base medium) "other")).
  fold (classify (rows_of (timestamps_normal base normal) "normal")).
  rewrite !severity_count_app, !severity_count_rows.
  unfold classify. rewrite length_fmap, !length_app, !length_rows_of.
  unfold timestamps_high, timestamps_medium, timestamps_normal.
  rewrite !length_date_range.
  change (classify_severity "dos") with "HIGH".
  change (classify_severity "other") with "MEDIUM".
  change (classify_severity "normal") with "NORMAL".
  repeat case_decide; try done. f_equal; lia.
Qed.

Lemma metrics_generated_witness :
  ∃ alerts,
    alerts_df 3 1 1 0 = Some alerts
    ∧ metrics (frame (time_shift 5 (mkSession alerts ∅)))
      = mkMetrics (3 + 1 + 1) 3 1 1.
Proof. apply (metrics_generated 3 1 1 0 5 ∅). lia. Defined.

(** ** The shift and the views *)

Lemma filter_alerts_add_timedelta attack_filter severity_filter d df :
  filter_alerts attack_filter severity_filter (add_timedelta d <$> df)
  = add_timedelta d <$> filter_alerts attack_filter severity_filter df.
Proof.
  unfold filter_alerts, filter_severity, filter_attack.
  case_decide.
  - by rewrite !filter_add_timedelta.
  - by rewrite filter_add_timedelta.
Qed.

Lemma attack_type_add_timedelta d (df : list Alert) :
  attack_type <$> (add_timedelta d <$> df) = attack_type <$> df.
Proof. rewrite <- list_fmap_compose. by apply list_fmap_ext. Qed.

Lemma label_add_timedelta d (df : list Alert) :
  label <$> (add_timedelta d <$> df) = label <$> df.
Proof. rewrite <- list_fmap_compose. by apply list_fmap_ext. Qed.

Lemma label_count_add_timedelta l d df :
  label_count l (add_timedelta d <$> df) = label_count l df.
Proof.
  unfold label_count, group_size. rewrite filter_add_timedelta by done.
  apply length_fmap.
Qed.

(** X4: The block of lines 123-126 changes timestamps and nothing else: the
    options of the attack-type filter, the metrics and the label counts are
    those of the frame before it, and every filtered view is the filtered
    view of the frame before it with one common duration added. *)
Theorem time_shift_views (now : Z) (s : Session) :
  ∃ d,
    (∀ attack_filter severity_filter,
       filter_alerts attack_filter severity_filter (frame (time_shift now s))
       = add_timedelta d
           <$> filter_alerts attack_filter severity_filter (frame s))
    ∧ attack_filter_options (frame (time_shift now s))
      = attack_filter_options (frame s)
    ∧ metrics (frame (time_shift now s)) = metrics (frame s)
    ∧ value_counts (frame (time_shift now s)) = value_counts (frame s).
Proof.
  destruct (time_shift_offset now s) as [d ->]. exists d.
  split; [|split; [|split]].
  - intros a sv. apply filter_alerts_add_timedelta.
  - unfold attack_filter_options. by rewrite attack_type_add_timedelta.
  - unfold metrics. by rewrite length_fmap, !severity_count_add_timedelta.
  - unfold value_counts. rewrite label_add_timedelta. f_equal.
    apply list_fmap_ext. intros _ l _. by rewrite label_count_add_timedelta.
Qed.

(** ** Options and filter together *)

Lemma elem_of_attack_filter_options a df :
  a ∈ attack_filter_options df ↔ a = "All" ∨ ∃ r, r ∈ df ∧ attack_type r = a.
Proof.
  unfold attack_filter_options.
  rewrite elem_of_app, list_elem_of_singleton.
  rewrite sorted_Permutation, elem_of_unique, list_elem_of_fmap.
  split; (intros [?|(r & ? & ?)]; [by left|right; by exists r]).
Qed.

Lemma elem_of_filter_alerts r attack_filter severity_filter df :
  r ∈ filter_alerts attack_filter severity_filter df
  ↔ r ∈ df ∧ (attack_filter = "All" ∨ attack_type r = attack_filter)
    ∧ severity r ∈ severity_filter.
Proof.
  unfold filter_alerts, filter_severity, filter_attack.
  case_decide; rewrite !list_elem_of_filter; tauto.
Qed.

(** X5: With every severity selected, the choices that show at least one row
    of a frame with rows are the options of the select box, no more and no
    less; a choice other than "All" shows rows of that attack type only. *)
Theorem attack_filter_option_rows (df : list Alert) (attack_filter : string) :
  consistent df →
  df ≠ [] →
  ((∃ r, r ∈ filter_alerts attack_filter severity_options df)
   ↔ attack_filter ∈ attack_filter_options df)
  ∧ (attack_filter ≠ "All" →
     Forall (λ r, attack_type r = attack_filter)
       (filter_alerts attack_filter severity_options df)).
Proof.
  intros Hdf Hne. split.
  - rewrite elem_of_attack_filter_options. split.
    + intros (r & Hr). apply elem_of_filter_alerts in Hr as (Hr & [?|?] & _);
        [by left|right; by exists r].
    + pose proof (consistent_severity_options df Hdf) as Hsev.
      rewrite Forall_forall in Hsev.
      intros [->|(r & Hr & <-)].
      * destruct df as [|r df]; [done|]. exists r.
        apply elem_of_filter_alerts. split; [apply elem_of_cons; by left|].
        split; [by left|]. apply Hsev, elem_of_cons. by left.
      * exists r. apply elem_of_filter_alerts. auto.
  - intros Hall. apply Forall_forall. intros r Hr.
    apply elem_of_filter_alerts in Hr as (_ & [?|?] & _); done.
Qed.

Lemma attack_filter_option_rows_witness :
  ((∃ r, r ∈ filter_alerts "other" severity_options sample_df)
   ↔ "other" ∈ attack_filter_options sample_df)
  ∧ ("other" ≠ "All" →
     Forall (λ r, attack_type r = "other")
       (filter_alerts "other" severity_options sample_df)).
Proof.
  apply (attack_filter_option_rows sample_df "other").
  - unfold consistent, sample_df. repeat constructor.
  - discriminate.
Defined.

(** X6: The filter only removes rows: its result is a sublist of the frame, in
    the order of the frame, and filtering the result again with the same
    choices removes nothing more. *)
Theorem filter_alerts_idempotent (attack_filter : string)
    (severity_filter : list string) (df : list Alert) :
  filter_alerts attack_filter severity_filter df `sublist_of` df
  ∧ filter_alerts attack_filter severity_filter
      (filter_alerts attack_filter severity_filter df)
    = filter_alerts attack_filter severity_filter df.
Proof.
  split.
  - unfold filter_alerts, filter_severity, filter_attack.
    case_decide; [etrans|]; apply sublist_filter.
  - unfold filter_alerts, filter_severity, filter_attack.
    case_decide; rewrite !list_filter_filter;
      apply list_filter_iff; intros r; tauto.
Qed.

(** ** The tables *)

Lemma length_tail n (df : list Alert) : length (tail n df) = n `min` length df.
Proof. unfold tail. rewrite length_drop. lia. Qed.

Lemma tail_suffix n (df : list Alert) : tail n df `suffix_of` df.
Proof. apply suffix_drop. Qed.

Lemma tail_app n (df1 df2 : list Alert) :
  n ≤ length df2 → tail n (df1 ++ df2) = tail n df2.
Proof.
  intros Hn. unfold tail. rewrite length_app.
  rewrite drop_app_ge by lia. f_equal. lia.
Qed.

Lemma critical_nil df :
  critical df = [] ↔ ∀ r, r ∈ df → severity r ≠ "HIGH".
Proof.
  unfold critical. split.
  - intros Hnil r Hr Hhigh.
    by apply (filter_nil_not_elem_of _ _ r Hnil Hhigh).
  - intros Hdf. induction df as [|r df IH]; [done|].
    rewrite filter_cons_False.
    + apply IH. intros r' Hr'. apply Hdf, elem_of_cons. by right.
    + apply Hdf, elem_of_cons. by left.
Qed.

Lemma critical_high df : Forall (λ r, severity r = "HIGH") (critical df).
Proof.
  apply Forall_forall. intros r Hr.
  by apply list_elem_of_filter in Hr as [Hr _].
Qed.

(** X7: Lines 251-259 on a filtered view: the success message is shown exactly
    when the view has no HIGH row, in particular whenever HIGH is not among
    the selected severities; otherwise the table shows the last rows of the
    HIGH rows of the view, ten of them or all if there are fewer, in the
    order of the frame. *)
Theorem high_severity_panel_cases (attack_filter : string)
    (severity_filter : list string) (df : list Alert) :
  let view := filter_alerts attack_filter severity_filter df in
  (high_severity_panel view = Success
   ↔ ∀ r, r ∈ view → severity r ≠ "HIGH")
  ∧ ("HIGH" ∉ severity_filter → high_severity_panel view = Success)
  ∧ (high_severity_panel view ≠ Success →
     ∃ rows,
       high_severity_panel view = Table table_columns rows
       ∧ rows ≠ []
       ∧ length rows = 10 `min` severity_count "HIGH" view
       ∧ rows `suffix_of` critical view
       ∧ Forall (λ r, severity r = "HIGH") rows).
Proof.
  intros view.
  assert (Hcases : high_severity_panel view = Success
                   ↔ ∀ r, r ∈ view → severity r ≠ "HIGH").
  { rewrite <- critical_nil. unfold high_severity_panel.
    case_decide; split; done. }
  split; [exact Hcases|]. split.
  - intros Hsev. apply Hcases. intros r Hr Hhigh.
    apply elem_of_filter_alerts in Hr as (_ & _ & Hin).
    rewrite Hhigh in Hin. done.
  - unfold high_severity_panel. case_decide as Hcrit; [done|]. intros _.
    exists (tail 10 (critical view)). split; [done|].
    assert (Hlen : length (tail 10 (critical view))
                   = 10 `min` severity_count "HIGH" view)
      by apply length_tail.
    split; [|split; [exact Hlen|split; [apply tail_suffix|]]].
    + intros Hnil. rewrite Hnil in Hlen. simpl in Hlen.
      unfold severity_count in Hlen. fold (critical view) in Hlen.
      destruct (critical view); [done|]. simpl in Hlen. lia.
    + apply Forall_drop, critical_high.
Qed.

Lemma filter_alerts_all_severities df :
  consistent df → filter_alerts "All" severity_options df = df.
Proof.
  intros Hdf. unfold filter_alerts. rewrite filter_attack_All.
  by apply filter_keeps_all, consistent_severity_options.
Qed.

Lemma attack_type_rows ts attack :
  Forall (λ r, attack_type r = attack) (classify (rows_of ts attack)).
Proof.
  unfold classify, rows_of. apply Forall_fmap, Forall_forall.
  intros [t a] Hin. apply elem_of_zip_r in Hin.
  by apply elem_of_replicate in Hin as [-> _].
Qed.

(** X8: The expander shows the end of the frame, not the latest alerts: when
    the generator makes at least twenty "normal" events and nothing is
    filtered out, its twenty rows are all "normal" events. *)
Theorem full_log_generated (high medium normal : nat) (base now : Z)
    (state : gmap string bool) :
  20 ≤ normal →
  ∃ alerts rows,
    alerts_df high medium normal base = Some alerts
    ∧ full_log (filter_alerts "All" severity_options
                  (frame (time_shift now (mkSession alerts state))))
      = Table table_columns rows
    ∧ length rows = 20
    ∧ Forall (λ r, attack_type r = "normal") rows.
Proof.
  intros Hnormal.
  eexists _, _. split; [apply alerts_df_rows; lia|].
  split; [reflexivity|].
  rewrite filter_alerts_all_severities
    by apply time_shift_consistent, classify_consistent.
  destruct (time_shift_offset now
    (mkSession (classify (rows_of (timestamps_high base high) "dos"
       ++ rows_of (timestamps_medium base medium) "other"
       ++ rows_of (timestamps_normal base normal) "normal")) state))
    as [d ->].
  cbn [frame]. unfold classify. rewrite app_assoc, !fmap_app.
  fold (classify (rows_of (timestamps_normal base normal) "normal")).
  assert (Hlen : length (add_timedelta d
            <$> classify (rows_of (timestamps_normal base normal) "normal"))
          = normal).
  { unfold classify, timestamps_normal.
    by rewrite !length_fmap, length_rows_of, length_date_range. }
  rewrite tail_app by lia. split.
  - rewrite length_tail. lia.
  - apply Forall_drop, Forall_fmap.
    eapply Forall_impl; [apply attack_type_rows|]. by intros r Hr.
Qed.

Lemma full_log_generated_witness :
  ∃ alerts rows,
    alerts_df 1 0 20 0 = Some alerts
    ∧ full_log (filter_alerts "All" severity_options
                  (frame (time_shift 0 (mkSession alerts ∅))))
      = Table table_columns rows
    ∧ length rows = 20
    ∧ Forall (λ r, attack_type r = "normal") rows.
Proof. apply (full_log_generated 1 0 20 0 0 ∅). lia. Defined.

(** ** Group sizes *)

Section group_sizes.
Context {K : Type} `{EqDecision K} (key : Alert → K).

Lemma group_size_cons r df k :
  group_size key (r :: df) k
  = (if decide (key r = k) then 1 else 0) + group_size key df k.
Proof. unfold group_size. rewrite filter_cons. by case_decide. Qed.

Lemma group_size_pos df k : (∃ r, r ∈ df ∧ key r = k) → 0 < group_size key df k.
Proof.
  intros (r & Hr & Hk). unfold group_size.
  assert (Hin : r ∈ filter (λ r, key r = k) df)
    by (by apply list_elem_of_filter).
  destruct (filter (λ r, key r = k) df); [by apply elem_of_nil in Hin|].
  simpl. lia.
Qed.

Lemma group_sizes_cons r df ks :
  NoDup ks →
  sum_list (group_size key (r :: df) <$> ks)
  = (if decide (key r ∈ ks) then 1 else 0) + sum_list (group_size key df <$> ks).
Proof.
  induction 1 as [|k ks Hk _ IH]; [done|].
  rewrite !fmap_cons. cbn [sum_list_with id].
  rewrite IH, group_size_cons.
  destruct (decide (key r = k)) as [->|Hne].
  - rewrite decide_False by done.
    rewrite decide_True by (apply elem_of_cons; by left). lia.
  - destruct (decide (key r ∈ ks)) as [Hin|Hin].
    + rewrite decide_True by (apply elem_of_cons; by right). lia.
    + rewrite decide_False; [lia|].
      rewrite elem_of_cons. tauto.
Qed.

(** Every row is counted under exactly one key. *)
Lemma group_sizes_sum df ks :
  NoDup ks →
  (∀ r, r ∈ df → key r ∈ ks) →
  sum_list (group_size key df <$> ks) = length df.
Proof.
  intros Hks. induction df as [|r df IH]; intros Hkeys.
  - clear Hkeys Hks. induction ks as [|k ks IH]; [done|].
    rewrite fmap_cons. cbn [sum_list_with id]. by rewrite IH.
  - rewrite group_sizes_cons by done.
    rewrite decide_True by (apply Hkeys, elem_of_cons; by left).
    rewrite IH; [done|].
    intros r' Hr'. apply Hkeys, elem_of_cons. by right.
Qed.
End group_sizes.

(** ** The label counts and the top attacks *)

Lemma insert_desc_Permutation x l : insert_desc x l ≡ₚ x :: l.
Proof.
  induction l as [|y l IH]; [done|]. simpl.
  case_decide; [|done]. rewrite IH. apply Permutation_swap.
Qed.

Lemma sort_desc_Permutation l : sort_desc l ≡ₚ l.
Proof.
  induction l as [|x l IH]; [done|]. simpl.
  by rewrite insert_desc_Permutation, IH.
Qed.

Lemma insert_desc_sorted x l :
  StronglySorted by_count_desc l → StronglySorted by_count_desc (insert_desc x l).
Proof.
  induction 1 as [|y l Hl IH Hy]; simpl.
  - repeat constructor.
  - case_decide as Hxy.
    + constructor; [done|].
      rewrite insert_desc_Permutation. constructor; [|done].
      unfold by_count_desc. lia.
    + constructor; [by constructor|].
      constructor; [unfold by_count_desc; lia|].
      eapply Forall_impl; [exact Hy|].
      unfold by_count_desc. intros z Hz. lia.
Qed.

Lemma sort_desc_sorted l : StronglySorted by_count_desc (sort_desc l).
Proof.
  induction l as [|x l IH]; simpl; [constructor|].
  by apply insert_desc_sorted.
Qed.

Lemma elem_of_value_counts df l c :
  (l, c) ∈ value_counts df ↔ l ∈ label <$> df ∧ c = label_count l df.
Proof.
  unfold value_counts.
  rewrite sort_desc_Permutation, list_elem_of_fmap.
  setoid_rewrite elem_of_unique. split.
  - intros (l' & Heq & Hl'). by simplify_eq.
  - intros [Hl ->]. by exists l.
Qed.

Lemma value_counts_labels df :
  (value_counts df).*1 ≡ₚ unique (label <$> df).
Proof.
  unfold value_counts. rewrite sort_desc_Permutation.
  rewrite <- list_fmap_compose. by rewrite list_fmap_id.
Qed.

Lemma value_counts_sum df : sum_list (value_counts df).*2 = length df.
Proof.
  unfold value_counts. rewrite sort_desc_Permutation.
  rewrite <- list_fmap_compose.
  apply (group_sizes_sum label).
  - apply NoDup_unique_from.
  - intros r Hr. apply elem_of_unique, list_elem_of_fmap. by exists r.
Qed.

(** X9: Line 189: the chart has one bar per label of the view, each as high as
    the number of rows with that label and none empty; the bars are in
    order of decreasing height and their heights add up to the number of
    rows of the view. *)
Theorem value_counts_bars (df : list Alert) :
  (∀ l c, (l, c) ∈ value_counts df
          ↔ (∃ r, r ∈ df ∧ label r = l)
            ∧ c = length (filter (λ r, label r = l) df))
  ∧ NoDup (value_counts df).*1
  ∧ StronglySorted (λ a b, b.2 ≤ a.2) (value_counts df)
  ∧ Forall (λ e, 0 < e.2) (value_counts df)
  ∧ sum_list (value_counts df).*2 = length df.
Proof.
  split; [|split; [|split; [|split]]].
  - intros l c. rewrite elem_of_value_counts, list_elem_of_fmap.
    split; (intros [(r & ? & ?) ?]; split; [by exists r|done]).
  - rewrite value_counts_labels. apply NoDup_unique_from.
  - apply sort_desc_sorted.
  - apply Forall_forall. intros [l c] Hin.
    apply elem_of_value_counts in Hin as [Hl ->].
    apply list_elem_of_fmap in Hl as (r & -> & Hr).
    apply (group_size_pos label). by exists r.
  - apply value_counts_sum.
Qed.

(** X10: Lines 221-223: the chart of the top attacks has five bars, or one per
    label if the view has fewer labels, drawn in order of increasing
    height; no label left out has more rows than a label shown. *)
Theorem top_bars_highest (df : list Alert) :
  length (top_bars df) = 5 `min` length (unique (label <$> df))
  ∧ StronglySorted (λ a b, a.2 ≤ b.2) (top_bars df)
  ∧ (∀ shown other,
       shown ∈ top_bars df → other ∈ value_counts df →
       other ∉ top_bars df → other.2 ≤ shown.2).
Proof.
  unfold top_bars, top.
  pose proof (sort_desc_sorted
    ((λ l, (l, label_count l df)) <$> unique (label <$> df))) as Hsorted.
  fold (value_counts df) in Hsorted.
  rewrite <- (take_drop 5 (value_counts df)) in Hsorted.
  apply StronglySorted_app in Hsorted as (Hcross & Htake & _).
  split; [|split].
  - rewrite length_reverse, length_take.
    by rewrite <- (length_fmap fst (value_counts df)), value_counts_labels.
  - clear Hcross. induction Htake as [|x l _ IH Hx]; [constructor|].
    rewrite reverse_cons. apply StronglySorted_app_2; [|done|repeat constructor].
    intros a b Ha Hb. apply list_elem_of_singleton in Hb as ->.
    rewrite elem_of_reverse in Ha. rewrite Forall_forall in Hx.
    by apply Hx.
  - intros shown other Hshown Hother Hnot.
    rewrite elem_of_reverse in Hshown, Hnot.
    rewrite <- (take_drop 5 (value_counts df)), elem_of_app in Hother.
    destruct Hother as [?|Hother]; [done|].
    by apply (Hcross shown other).
Qed.

Example value_counts_sample :
  value_counts sample_df = [("DOS", 3); ("OTHER", 1); ("NORMAL", 1)]
  ∧ top_bars sample_df = [("NORMAL", 1); ("OTHER", 1); ("DOS", 3)].
Proof. by vm_compute. Qed.

(** ** The severity trend *)

Local Open Scope Z_scope.


Local Close Scope Z_scope.

Global Instance key_le_trans : Transitive key_le.
Proof.
  intros [b1 s1] [b2 s2] [b3 s3]. unfold key_le; simpl.
  intros [H12|[-> H12]] [H23|[-> H23]].
  - left. lia.
  - by left.
  - by left.
  - right. split; [done|]. by etrans.
Qed.

Global Instance key_le_total : Total key_le.
Proof.
  intros [b1 s1] [b2 s2]. unfold key_le; simpl.
  destruct (Z.lt_trichotomy b1 b2) as [?|[->|?]]; [by left; left| |by right; left].
  destruct (total String.le s1 s2); [left|right]; by right.
Qed.





Example trend_sample :
  trend sample_df = [(0%Z, "HIGH", 3); (0%Z, "MEDIUM", 1); (0%Z, "NORMAL", 1)].
Proof. by vm_compute. Qed.

(** ** The latest alert *)

Local Open Scope Z_scope.






Local Close Scope Z_scope.

